(** * supervisor/arch.py: the CPU architecture handler [CpuArch]

    A shallow embedding of [supervisor/arch.py].  The methods of the
    Python class [CpuArch] mutate the instance, may raise, and write to the
    module logger; they are embedded in a small monad that threads the
    instance, collects the log records and propagates exceptions the way
    Python does (what was assigned before a [raise] stays assigned).

    Modelling choices, stated once:
    - [str] is [string]; [str.lower] is modelled on ASCII letters;
    - the [dict] read from [data/arch.json] is a [gmap string (list string)],
      the shape [load] indexes it with; [MAP_CPU] is a [gmap string string];
    - the [set] [_supported_set] is a [gset string];
    - an attribute that was declared but never assigned is [None];
    - what the module gets from outside ([read_json_file], [sys_machine],
      [platform.machine()], the install path) is a record [Host]. *)

From stdpp Require Import base option list gmap strings.
From Stdlib Require Import Ascii String.

Local Open Scope string_scope.
Local Open Scope list_scope.

(** ** Python strings *)

Module PyStr.

(** [c.lower()] on one ASCII character. *)
Definition lower_ascii (c : ascii) : ascii :=
  let n := nat_of_ascii c in
  if (65 <=? n)%nat && (n <=? 90)%nat then ascii_of_nat (n + 32) else c.

(** [s.lower()] *)
Fixpoint lower (s : string) : string :=
  match s with
  | EmptyString => EmptyString
  | String c s' => String (lower_ascii c) (lower s')
  end.

(** [s.startswith(sub)] *)
Fixpoint startswith (sub s : string) : bool :=
  match sub, s with
  | EmptyString, _ => true
  | String _ _, EmptyString => false
  | String a sub', String b s' => Ascii.eqb a b && startswith sub' s'
  end.

(** [sub in s] for two strings: [sub] occurs at some position of [s]. *)
Fixpoint contains (sub s : string) : bool :=
  startswith sub s ||
  match s with
  | EmptyString => false
  | String _ s' => contains sub s'
  end.

(** The relation [contains] decides. *)
Definition Substring (sub s : string) : Prop :=
  exists pre post : string, s = pre +:+ sub +:+ post.

End PyStr.

(** ** Exceptions, log records, the instance *)

Inductive exn : Type :=
| ConfigurationFileError
| HassioArchNotFound
| IndexError
| AttributeError.

#[global] Instance exn_eq_dec : EqDecision exn.
Proof. solve_decision. Defined.

Inductive level : Type := INFO | WARNING.

(** A call [_LOGGER.<level>(msg, *args)]. *)
Record log_record : Type := LogRecord {
  levelname : level;
  msg : string;
  args : list string
}.

(** The attributes [__init__] sets up on [self]. *)
Record CpuArch : Type := mkCpuArch {
  _supported_arch : list string;
  _supported_set : gset string;
  _default_arch : option string
}.

(** What a method call leaves behind: the value returned or the exception
    raised, the instance afterwards, and the records logged, oldest first. *)
Record outcome (A : Type) : Type := Outcome {
  result : exn + A;
  self_after : CpuArch;
  logged : list log_record
}.
Arguments Outcome {A} _ _ _.
Arguments result {A} _.
Arguments self_after {A} _.
Arguments logged {A} _.

Definition M (A : Type) : Type := CpuArch -> outcome A.

Definition ret {A} (a : A) : M A := fun self => Outcome (inr a) self [].

Definition raise {A} (e : exn) : M A := fun self => Outcome (inl e) self [].

Definition bind {A B} (m : M A) (k : A -> M B) : M B := fun self =>
  let o := m self in
  match result o with
  | inl e => Outcome (inl e) (self_after o) (logged o)
  | inr a =>
      let o' := k a (self_after o) in
      Outcome (result o') (self_after o') (logged o ++ logged o')
  end.

(** [try: body except e: handler] *)
Definition try_except {A} (body : M A) (e : exn) (handler : M A) : M A :=
  fun self =>
  let o := body self in
  match result o with
  | inl e' =>
      if bool_decide (e' = e) then
        let o' := handler (self_after o) in
        Outcome (result o') (self_after o') (logged o ++ logged o')
      else o
  | inr _ => o
  end.

Definition get : M CpuArch := fun self => Outcome (inr self) self [].
Definition put (self' : CpuArch) : M unit := fun _ => Outcome (inr tt) self' [].

Definition log (l : level) (m : string) (a : list string) : M unit :=
  fun self => Outcome (inr tt) self [LogRecord l m a].

#[global] Instance M_ret : MRet M := @ret.
#[global] Instance M_bind : MBind M := fun A B k m => bind m k.
#[global] Instance M_fmap : FMap M := fun A B f m => bind m (fun a => ret (f a)).

(** ** The host the module runs on *)

(** [read_json_file ARCH_JSON] gives the table or raises
    [ConfigurationFileError] ([None]); [sys_machine] is the machine type of
    the core system, possibly [None]; [platform_machine] is what
    [platform.machine()] returns; [ARCH_JSON] is the path of the table,
    fixed by where the package is installed. *)
Record Host : Type := mkHost {
  arch_json : option (gmap string (list string));
  sys_machine : option string;
  platform_machine : string;
  ARCH_JSON : string
}.

Definition MAP_CPU : gmap string string :=
  list_to_map
    [ ("armv7", "armv7");
      ("armv6", "armhf");
      ("armv8", "aarch64");
      ("aarch64", "aarch64");
      ("i686", "i386");
      ("x86_64", "amd64") ].

(** ** The class *)

(** [CpuArch.__init__]: [_default_arch] is annotated but not assigned. *)
Definition init : CpuArch :=
  {| _supported_arch := []; _supported_set := ∅; _default_arch := None |}.

(** Attribute writes. *)
Definition set_default_arch (a : string) : M unit := fun self =>
  put {| _supported_arch := _supported_arch self;
         _supported_set := _supported_set self;
         _default_arch := Some a |} self.

Definition set_supported_arch (l : list string) : M unit := fun self =>
  put {| _supported_arch := l;
         _supported_set := _supported_set self;
         _default_arch := _default_arch self |} self.

Definition set_supported_set (s : gset string) : M unit := fun self =>
  put {| _supported_arch := _supported_arch self;
         _supported_set := s;
         _default_arch := _default_arch self |} self.

(** Property [default]: reading an attribute that was never assigned
    raises [AttributeError]. *)
Definition default : M string :=
  self ← get;
  match _default_arch self with
  | Some a => ret a
  | None => raise AttributeError
  end.

(** Property [supported]. *)
Definition supported : M (list string) :=
  self ← get; ret (_supported_arch self).

(** [l[0]] *)
Definition item0 (l : list string) : M string :=
  match l with
  | [] => raise IndexError
  | a :: _ => ret a
  end.

(** [self._supported_arch.append(x)] and [.extend(xs)]: in place. *)
Definition supported_arch_extend (xs : list string) : M unit :=
  self ← get; set_supported_arch (_supported_arch self ++ xs).

Definition supported_arch_append (x : string) : M unit :=
  supported_arch_extend [x].

(** [self._supported_set = set(self._supported_arch)] *)
Definition refresh_supported_set : M unit :=
  self ← get; set_supported_set (list_to_set (_supported_arch self)).

(** [bool(self.sys_machine)]: [None] and the empty string are false. *)
Definition truthy (m : option string) : bool :=
  match m with
  | None => false
  | Some s => negb (String.eqb s "")
  end.

(** [CpuArch.detect_cpu] *)
Definition detect_cpu (h : Host) : M string :=
  let cpu_arch := PyStr.lower (platform_machine h) in
  match MAP_CPU !! cpu_arch with
  | Some a => ret a
  | None =>
      if PyStr.contains "aarch64" cpu_arch then ret "aarch64"
      else if PyStr.contains "arm" cpu_arch && PyStr.contains "v8" cpu_arch
      then ret "aarch64"
      else if PyStr.contains "arm" cpu_arch && PyStr.contains "v7" cpu_arch
      then ret "armv7"
      else if PyStr.contains "arm" cpu_arch then ret "armhf"
      else
        log WARNING "Unsupported CPU architecture: %s" [cpu_arch];;
        ret "amd64"
  end.

(** [read_json_file(ARCH_JSON)], run in the executor. *)
Definition read_json_file (h : Host) : M (gmap string (list string)) :=
  match arch_json h with
  | Some t => ret t
  | None => raise ConfigurationFileError
  end.

(** [CpuArch.load], after the table was read. *)
Definition load_with (h : Host) (arch_data : gmap string (list string)) : M unit :=
  native_support ← detect_cpu h;
  log INFO "Native architecture support: %s" [native_support];;
  if negb (truthy (sys_machine h)) then
    log WARNING "Can't detect the machine type!" [];;
    set_default_arch native_support;;
    d ← default;
    supported_arch_append d;;
    refresh_supported_set
  else
    let machine := from_option id "" (sys_machine h) in
    if String.eqb native_support "aarch64" || String.eqb machine "aarch64" then
      log INFO "Setting up aarch64 architecture support" [];;
      set_default_arch "aarch64";;
      set_supported_arch ["aarch64"; "armv7"; "armhf"];;
      refresh_supported_set
    else
      match arch_data !! machine with
      | Some entry =>
          supported_arch_extend entry;;
          s ← supported;
          a ← item0 s;
          set_default_arch a
      | None =>
          log WARNING "Machine type %s not found in arch data!" [machine];;
          set_default_arch native_support;;
          d ← default;
          supported_arch_append d
      end;;
      self ← get;
      (if bool_decide (native_support ∈ _supported_arch self) then ret tt
       else supported_arch_append native_support);;
      refresh_supported_set.

(** [CpuArch.load] *)
Definition load (h : Host) : M unit :=
  r ← try_except (Some <$> read_json_file h) ConfigurationFileError
        (log WARNING "Can't read arch json file from %s" [ARCH_JSON h];;
         ret None);
  match r with
  | None => ret tt
  | Some arch_data => load_with h arch_data
  end.

(** [set.isdisjoint(iterable)] *)
Definition isdisjoint (s : gset string) (l : list string) : bool :=
  forallb (fun x => negb (bool_decide (x ∈ s))) l.

(** [CpuArch.is_supported] *)
Definition is_supported (arch_list : list string) : M bool :=
  self ← get; ret (negb (isdisjoint (_supported_set self) arch_list)).

(** The [for] loop of [CpuArch.match] over the remaining preferences. *)
Fixpoint match_loop (prefs arch_list : list string) : M string :=
  match prefs with
  | [] => raise HassioArchNotFound
  | self_arch :: rest =>
      if bool_decide (self_arch ∈ arch_list) then ret self_arch
      else match_loop rest arch_list
  end.

(** [CpuArch.match] *)
Definition match_ (arch_list : list string) : M string :=
  s ← supported; match_loop s arch_list.

(** ** Notions the statements use *)

(** The keys of [MAP_CPU]. *)
Definition MAP_CPU_keys : list string :=
  ["armv7"; "armv6"; "armv8"; "aarch64"; "i686"; "x86_64"].

(** When the special handling for aarch64 applies. *)
Definition aarch64_override (native m : string) : bool :=
  String.eqb native "aarch64" || String.eqb m "aarch64".

(** A call of [load] that does not populate the instance: the table could
    not be read, or the call raised. *)
Definition unpopulating (self : CpuArch) (h : Host) : Prop :=
  arch_json h = None \/ exists e, result (load h self) = inl e.

(** The instance after calling [load] on each host in turn. *)
Definition loads (hs : list Host) : CpuArch :=
  foldl (fun self h => self_after (load h self)) init hs.

(** ** Sample hosts *)

Definition sample_table : gmap string (list string) :=
  {[ "raspberrypi4" := ["armv7"; "armhf"];
     "intel-nuc" := ["amd64"; "i386"];
     "blank" := [] ]}.

Definition host_blank : Host :=
  mkHost (Some sample_table) (Some "blank") "x86_64" "data/arch.json".
Definition host_rpi4 : Host :=
  mkHost (Some sample_table) (Some "raspberrypi4") "armv7l" "data/arch.json".
Definition host_nuc_arm : Host :=
  mkHost (Some sample_table) (Some "intel-nuc") "armv6l" "data/arch.json".
Definition host_odd_aarch64 : Host :=
  mkHost (Some sample_table) (Some "odroid-n2") "aarch64" "data/arch.json".
Definition host_no_machine : Host :=
  mkHost (Some sample_table) None "AArch64" "data/arch.json".
Definition host_odd_amd64 : Host :=
  mkHost (Some sample_table) (Some "odroid-n2") "x86_64" "data/arch.json".
Definition host_no_table : Host :=
  mkHost None (Some "raspberrypi4") "armv7l" "data/arch.json".

Definition host_named_aarch64 : Host :=
  mkHost (Some sample_table) (Some "aarch64") "x86_64" "data/arch.json".

Definition host_unknown_cpu : Host :=
  mkHost (Some sample_table) (Some "intel-nuc") "RISCV64" "data/arch.json".

(** Strings of ASCII characters only (every byte below 128); on these
    [PyStr.lower] is [str.lower]. *)
Fixpoint ascii_only (s : string) : bool :=
  match s with
  | EmptyString => true
  | String c s' => (nat_of_ascii c <? 128)%nat && ascii_only s'
  end.

(** ** The branches of [load] *)

(** How [load] ends once the table [t] was read, by the branch taken: the
    value or exception, and the instance afterwards, for the native tag
    [native] and the instance [self] it started from. *)
Inductive loaded (h : Host) (t : gmap string (list string)) (native : string)
    (self : CpuArch) : exn + unit -> CpuArch -> Prop :=
| loaded_no_machine :
    truthy (sys_machine h) = false ->
    loaded h t native self (inr tt)
      {| _supported_arch := _supported_arch self ++ [native];
         _supported_set := list_to_set (_supported_arch self ++ [native]);
         _default_arch := Some native |}
| loaded_override m :
    sys_machine h = Some m -> m <> "" ->
    aarch64_override native m = true ->
    loaded h t native self (inr tt)
      {| _supported_arch := ["aarch64"; "armv7"; "armhf"];
         _supported_set := list_to_set ["aarch64"; "armv7"; "armhf"];
         _default_arch := Some "aarch64" |}
| loaded_no_entry m :
    sys_machine h = Some m -> m <> "" ->
    aarch64_override native m = false ->
    t !! m = None ->
    loaded h t native self (inr tt)
      {| _supported_arch := _supported_arch self ++ [native];
         _supported_set := list_to_set (_supported_arch self ++ [native]);
         _default_arch := Some native |}
| loaded_entry m entry a rest :
    sys_machine h = Some m -> m <> "" ->
    aarch64_override native m = false ->
    t !! m = Some entry ->
    _supported_arch self ++ entry = a :: rest ->
    loaded h t native self (inr tt)
      (let l := if bool_decide (native ∈ a :: rest) then a :: rest
                else (a :: rest) ++ [native] in
       {| _supported_arch := l;
          _supported_set := list_to_set l;
          _default_arch := Some a |})
| loaded_index_error m :
    sys_machine h = Some m -> m <> "" ->
    aarch64_override native m = false ->
    t !! m = Some [] ->
    _supported_arch self = [] ->
    loaded h t native self (inl IndexError) self.

(** The tags the module hands out. *)
Definition arch_tags : list string :=
  ["armv7"; "armhf"; "aarch64"; "i386"; "amd64"].

(** What holds of the instance between calls. *)
Definition consistent (self : CpuArch) : Prop :=
  _supported_set self = list_to_set (_supported_arch self) /\
  (_default_arch self = None <-> _supported_arch self = []) /\
  (forall d, _default_arch self = Some d -> d ∈ _supported_arch self).

(** * Properties *)

(** ** How the monad runs *)

Section Running.
Context {A B : Type}.

Lemma bind_inr (m : M A) (k : A -> M B) self a self' lg :
  m self = Outcome (inr a) self' lg ->
  bind m k self =
    Outcome (result (k a self')) (self_after (k a self'))
            (lg ++ logged (k a self')).
Proof. intros E. unfold bind. rewrite E. reflexivity. Qed.

Lemma bind_inl (m : M A) (k : A -> M B) self e self' lg :
  m self = Outcome (inl e) self' lg ->
  bind m k self = Outcome (inl e) self' lg.
Proof. intros E. unfold bind. rewrite E. reflexivity. Qed.

Lemma outcome_eta (o : outcome A) :
  Outcome (result o) (self_after o) (logged o) = o.
Proof. destruct o; reflexivity. Qed.
End Running.

(** Unfolds the monad and the attribute accessors, leaving the data. *)
Ltac run :=
  cbv [mbind mret fmap M_bind M_ret M_fmap bind ret raise get put log
       try_except set_default_arch set_supported_arch set_supported_set
       default supported item0 supported_arch_append supported_arch_extend
       refresh_supported_set result self_after logged
       _supported_arch _supported_set _default_arch] in *.

(** ** Strings *)

Lemma startswith_spec sub s :
  PyStr.startswith sub s = true <-> exists post, s = sub +:+ post.
Proof.
  revert s. induction sub as [|a sub IH]; intros s; simpl.
  - split; [intros _; exists s; reflexivity | reflexivity].
  - destruct s as [|b s].
    + split; [discriminate | intros [post E]; discriminate].
    + rewrite andb_true_iff, Ascii.eqb_eq, IH. split.
      * intros [-> [post ->]]. exists post. reflexivity.
      * intros [post E]. injection E as -> ->. split; [reflexivity | eauto].
  Qed.

Lemma contains_spec sub s :
  PyStr.contains sub s = true <-> PyStr.Substring sub s.
Proof.
  unfold PyStr.Substring. induction s as [|b s IH]; simpl.
  - rewrite orb_false_r, startswith_spec. split.
    + intros [post E]. exists "", post. exact E.
    + intros [pre [post E]]. destruct pre; [eauto | discriminate].
  - rewrite orb_true_iff, startswith_spec, IH. split.
    + intros [[post E] | [pre [post E]]].
      * exists "", post. exact E.
      * exists (String b pre), post. simpl. rewrite E. reflexivity.
    + intros [pre [post E]]. destruct pre as [|c pre]; simpl in E.
      * left. eauto.
      * right. injection E as _ E. eauto.
Qed.

Lemma contains_false_spec sub s :
  PyStr.contains sub s = false <-> ~ PyStr.Substring sub s.
Proof.
  rewrite <- contains_spec. destruct (PyStr.contains sub s); split; congruence.
Qed.

(** ** [detect_cpu] *)

(** [detect_cpu] returns a tag, never raises, and leaves [self] alone. *)
Lemma detect_cpu_run h self :
  exists a lg, detect_cpu h self = Outcome (inr a) self lg.
Proof.
  unfold detect_cpu. destruct (MAP_CPU !! _); [run; eauto |].
  repeat (match goal with |- context [if ?b then _ else _] => destruct b end;
          [run; eauto |]).
  run; eauto.
Qed.

Lemma detect_cpu_indep h self self' :
  result (detect_cpu h self) = result (detect_cpu h self').
Proof.
  unfold detect_cpu. destruct (MAP_CPU !! _); [reflexivity |].
  repeat (match goal with |- context [if ?b then _ else _] => destruct b end;
          [reflexivity |]).
  reflexivity.
Qed.

Lemma MAP_CPU_None s : MAP_CPU !! s = None <-> s ∉ MAP_CPU_keys.
Proof. unfold MAP_CPU. rewrite <- not_elem_of_list_to_map. reflexivity. Qed.

(** The value [detect_cpu] returns, by the branch taken. *)
Lemma detect_cpu_result h self :
  let cpu_arch := PyStr.lower (platform_machine h) in
  result (detect_cpu h self) =
  inr match MAP_CPU !! cpu_arch with
      | Some a => a
      | None =>
          if PyStr.contains "aarch64" cpu_arch then "aarch64"
          else if PyStr.contains "arm" cpu_arch && PyStr.contains "v8" cpu_arch
          then "aarch64"
          else if PyStr.contains "arm" cpu_arch && PyStr.contains "v7" cpu_arch
          then "armv7"
          else if PyStr.contains "arm" cpu_arch then "armhf"
          else "amd64"
      end.
Proof.
  intros cpu_arch. unfold detect_cpu. fold cpu_arch.
  destruct (MAP_CPU !! cpu_arch); [reflexivity |].
  destruct (PyStr.contains "aarch64" cpu_arch); [reflexivity |].
  destruct (PyStr.contains "arm" cpu_arch); simpl; [| reflexivity].
  destruct (PyStr.contains "v8" cpu_arch); [reflexivity |].
  destruct (PyStr.contains "v7" cpu_arch); reflexivity.
Qed.

(** C4: [detect_cpu] never raises and leaves the instance alone; its value
    depends on the lower-cased [platform.machine()] only.  On each of the six
    keys of [MAP_CPU] it is the mapped tag, whatever the substring tests
    would say.  Off the keys: a string containing "aarch64" gives aarch64;
    else one containing "arm" and "v8" gives aarch64; else one containing
    "arm" and "v7" gives armv7; else one containing "arm" gives armhf; every
    other string gives amd64.  The five sample strings give aarch64,
    aarch64, armv7, armhf and amd64. *)
Theorem detect_cpu_mapping (h : Host) (self : CpuArch) :
  let cpu_arch := PyStr.lower (platform_machine h) in
  let has sub := PyStr.Substring sub cpu_arch in
  let returns a := result (detect_cpu h self) = inr a in
  (exists a, returns a) /\
  self_after (detect_cpu h self) = self /\
  (forall h' self',
     PyStr.lower (platform_machine h') = cpu_arch ->
     result (detect_cpu h' self') = result (detect_cpu h self)) /\
  (cpu_arch = "armv7" -> returns "armv7") /\
  (cpu_arch = "armv6" -> returns "armhf") /\
  (cpu_arch = "armv8" -> returns "aarch64") /\
  (cpu_arch = "aarch64" -> returns "aarch64") /\
  (cpu_arch = "i686" -> returns "i386") /\
  (cpu_arch = "x86_64" -> returns "amd64") /\
  (cpu_arch ∉ MAP_CPU_keys ->
     (has "aarch64" -> returns "aarch64") /\
     (~ has "aarch64" -> has "arm" /\ has "v8" -> returns "aarch64") /\
     (~ has "aarch64" -> ~ (has "arm" /\ has "v8") ->
      has "arm" /\ has "v7" -> returns "armv7") /\
     (~ has "aarch64" -> ~ (has "arm" /\ has "v8") ->
      ~ (has "arm" /\ has "v7") -> has "arm" -> returns "armhf") /\
     (~ has "aarch64" -> ~ has "arm" -> returns "amd64")) /\
  (cpu_arch = "aarch64-foo" -> returns "aarch64") /\
  (cpu_arch = "armv8l" -> returns "aarch64") /\
  (cpu_arch = "armv7l" -> returns "armv7") /\
  (cpu_arch = "armfoo" -> returns "armhf") /\
  (cpu_arch = "unknownarch" -> returns "amd64").
Proof.
  intros cpu_arch has returns. subst has returns. cbv beta.
  pose proof (detect_cpu_result h self) as R. cbv zeta in R. fold cpu_arch in R.
  assert (K : forall s, cpu_arch = s ->
            result (detect_cpu h self) =
            inr match MAP_CPU !! s with
                | Some a => a
                | None =>
                    if PyStr.contains "aarch64" s then "aarch64"
                    else if PyStr.contains "arm" s && PyStr.contains "v8" s
                    then "aarch64"
                    else if PyStr.contains "arm" s && PyStr.contains "v7" s
                    then "armv7"
                    else if PyStr.contains "arm" s then "armhf"
                    else "amd64"
                end) by (intros s <-; exact R).
  split; [eauto |].
  split; [destruct (detect_cpu_run h self) as (a & lg & ->); reflexivity |].
  split.
  { intros h' self' E. rewrite R, detect_cpu_result. cbv zeta. rewrite E.
    reflexivity. }
  do 6 (split; [intros E; rewrite (K _ E); vm_compute; reflexivity |]).
  split.
  { intros NK. apply MAP_CPU_None in NK. rewrite NK in R.
    rewrite <- !contains_false_spec, <- !contains_spec, <- !andb_true_iff.
    repeat split; intros; rewrite R;
      destruct (PyStr.contains "aarch64" cpu_arch),
               (PyStr.contains "arm" cpu_arch),
               (PyStr.contains "v8" cpu_arch),
               (PyStr.contains "v7" cpu_arch); simpl in *; congruence. }
  repeat split; intros E; rewrite (K _ E); vm_compute; reflexivity.
Qed.

(** ** [load] *)

Lemma load_readable h t self :
  arch_json h = Some t -> load h self = load_with h t self.
Proof.
  intros E. unfold load, read_json_file. rewrite E.
  run. simpl. apply outcome_eta.
Qed.

Lemma load_unreadable h self :
  arch_json h = None ->
  load h self =
  Outcome (inr tt) self
    [LogRecord WARNING "Can't read arch json file from %s" [ARCH_JSON h]].
Proof.
  intros E. unfold load, read_json_file. rewrite E. reflexivity.
Qed.

(** The branch of [load] for a machine type that is [None] or empty. *)
Lemma load_with_no_machine h t self native lg :
  detect_cpu h self = Outcome (inr native) self lg ->
  truthy (sys_machine h) = false ->
  load_with h t self =
  Outcome (inr tt)
    {| _supported_arch := _supported_arch self ++ [native];
       _supported_set := list_to_set (_supported_arch self ++ [native]);
       _default_arch := Some native |}
    (lg ++ [LogRecord INFO "Native architecture support: %s" [native];
            LogRecord WARNING "Can't detect the machine type!" []]).
Proof.
  intros D T. unfold load_with. rewrite T. run. rewrite D. reflexivity.
Qed.

Lemma truthy_Some m : m <> "" -> truthy (Some m) = true.
Proof.
  intros N. simpl. destruct (String.eqb_spec m ""); [contradiction | reflexivity].
Qed.

Lemma truthy_false m : truthy m = false <-> m = None \/ m = Some "".
Proof.
  destruct m as [s|]; simpl; [| intuition congruence].
  destruct (String.eqb_spec s ""); simpl; split; intros; subst;
    intuition congruence.
Qed.

Lemma aarch64_override_true native m :
  aarch64_override native m = true <-> native = "aarch64" \/ m = "aarch64".
Proof.
  unfold aarch64_override. rewrite orb_true_iff, !String.eqb_eq. reflexivity.
Qed.

Lemma aarch64_override_false native m :
  aarch64_override native m = false <-> native <> "aarch64" /\ m <> "aarch64".
Proof.
  unfold aarch64_override. rewrite orb_false_iff, !String.eqb_neq. reflexivity.
Qed.

Section LoadBranches.
Variables (h : Host) (t : gmap string (list string)) (self : CpuArch).
Variables (native m : string) (lg : list log_record).
Hypothesis D : detect_cpu h self = Outcome (inr native) self lg.
Hypothesis Hm : sys_machine h = Some m.
Hypothesis Hne : m <> "".

Let info := LogRecord INFO "Native architecture support: %s" [native].

(** The branch of the special handling for aarch64. *)
Lemma load_with_override :
  aarch64_override native m = true ->
  load_with h t self =
  Outcome (inr tt)
    {| _supported_arch := ["aarch64"; "armv7"; "armhf"];
       _supported_set := list_to_set ["aarch64"; "armv7"; "armhf"];
       _default_arch := Some "aarch64" |}
    (lg ++ [info;
            LogRecord INFO "Setting up aarch64 architecture support" []]).
Proof.
  intros O. unfold load_with. rewrite Hm, (truthy_Some _ Hne).
  unfold aarch64_override in O. run. rewrite D. simpl. rewrite O.
  reflexivity.
Qed.

(** The machine type is a key: its entry is added to the list.  An empty
    list after that has no item 0. *)
Lemma load_with_entry_empty entry :
  aarch64_override native m = false ->
  t !! m = Some entry ->
  _supported_arch self ++ entry = [] ->
  load_with h t self =
  Outcome (inl IndexError)
    {| _supported_arch := [];
       _supported_set := _supported_set self;
       _default_arch := _default_arch self |}
    (lg ++ [info]).
Proof.
  intros O E L. unfold load_with. rewrite Hm, (truthy_Some _ Hne).
  unfold aarch64_override in O. run. rewrite D. simpl. rewrite O, E, L.
  reflexivity.
Qed.

Lemma load_with_entry entry a rest :
  aarch64_override native m = false ->
  t !! m = Some entry ->
  _supported_arch self ++ entry = a :: rest ->
  load_with h t self =
  Outcome (inr tt)
    (let l := if bool_decide (native ∈ a :: rest) then a :: rest
              else (a :: rest) ++ [native] in
     {| _supported_arch := l;
        _supported_set := list_to_set l;
        _default_arch := Some a |})
    (lg ++ [info]).
Proof.
  intros O E L. unfold load_with. rewrite Hm, (truthy_Some _ Hne).
  unfold aarch64_override in O. run. rewrite D. simpl. rewrite O, E, L.
  simpl. destruct (bool_decide (native ∈ a :: rest)); reflexivity.
Qed.

(** The machine type is not a key. *)
Lemma load_with_no_entry :
  aarch64_override native m = false ->
  t !! m = None ->
  load_with h t self =
  Outcome (inr tt)
    {| _supported_arch := _supported_arch self ++ [native];
       _supported_set := list_to_set (_supported_arch self ++ [native]);
       _default_arch := Some native |}
    (lg ++ [info;
            LogRecord WARNING "Machine type %s not found in arch data!" [m]]).
Proof.
  intros O E. unfold load_with. rewrite Hm, (truthy_Some _ Hne).
  unfold aarch64_override in O. run. rewrite D. simpl. rewrite O, E.
  simpl. rewrite bool_decide_true by (apply elem_of_app; right; left).
  reflexivity.
Qed.
End LoadBranches.

(** Every run of [load] on a table that was read: either it returns, with
    the set equal to the list's elements and the default in the list, or
    the machine type's entry is empty, nothing was in the list, and
    [IndexError] leaves the instance as it was. *)
Lemma load_with_cases h t self :
  (exists s' lg d,
      load_with h t self = Outcome (inr tt) s' lg /\
      _supported_set s' = list_to_set (_supported_arch s') /\
      _default_arch s' = Some d /\ d ∈ _supported_arch s') \/
  (exists m native lg,
      sys_machine h = Some m /\ m <> "" /\
      result (detect_cpu h self) = inr native /\
      aarch64_override native m = false /\
      t !! m = Some [] /\ _supported_arch self = [] /\
      load_with h t self = Outcome (inl IndexError) self lg).
Proof.
  destruct (detect_cpu_run h self) as (native & lg & D).
  destruct (truthy (sys_machine h)) eqn:T.
  - destruct (sys_machine h) as [m|] eqn:Hm; [| discriminate].
    assert (Hne : m <> "") by (intros ->; discriminate).
    destruct (aarch64_override native m) eqn:O.
    + left. do 3 eexists. split; [eapply load_with_override; eauto |].
      simpl. repeat split. left.
    + destruct (t !! m) as [entry|] eqn:E.
      * destruct (_supported_arch self ++ entry) as [|a rest] eqn:L.
        -- right. exists m, native. eexists.
           pose proof L as L'. apply app_eq_nil in L' as [L1 ->].
           repeat split; eauto.
           ++ rewrite D. reflexivity.
           ++ erewrite load_with_entry_empty by eauto.
              destruct self; simpl in *. rewrite L1. reflexivity.
        -- left. do 3 eexists. split; [eapply load_with_entry; eauto |].
           simpl. repeat split.
           destruct (bool_decide _); left.
      * left. do 3 eexists. split; [eapply load_with_no_entry; eauto |].
        simpl. repeat split. apply elem_of_app. right. left.
  - left. do 3 eexists. split; [eapply load_with_no_machine; eauto |].
    simpl. repeat split. apply elem_of_app. right. left.
Qed.

(** ** C1: what [load] raises *)




(** ** C2: the invariants after [load] *)

(** C2: when the table was read and [load] returns, from whatever state the
    instance was in, [_supported_set] is the set of the elements of
    [_supported_arch], and, the list being non-empty, the [default] property
    returns one of its elements. *)
Theorem load_invariants h t self :
  arch_json h = Some t ->
  result (load h self) = inr tt ->
  let self' := self_after (load h self) in
  _supported_set self' = list_to_set (_supported_arch self') /\
  (_supported_arch self' <> [] ->
   exists d, result (default self') = inr d /\ d ∈ _supported_arch self').
Proof.
  intros E R. rewrite (load_readable _ _ _ E) in *.
  destruct (load_with_cases h t self)
    as [(s' & lg & d & W & S & Dd & I) | (m & native & lg & _ & _ & _ & _ & _ & _ & W)];
    rewrite W in *; simpl in *; [| discriminate].
  split; [exact S |]. intros _. exists d. split; [| exact I].
  unfold default. run. rewrite Dd. reflexivity.
Qed.

Lemma load_invariants_witness :
  let self' := self_after (load host_nuc_arm init) in
  _supported_arch self' = ["amd64"; "i386"; "armhf"] /\
  _supported_set self' = list_to_set (_supported_arch self') /\
  (_supported_arch self' <> [] ->
   exists d, result (default self') = inr d /\ d ∈ _supported_arch self').
Proof.
  split; [vm_compute; reflexivity |].
  apply (load_invariants host_nuc_arm sample_table init);
    vm_compute; reflexivity.
Defined.

(** ** C3: the special handling for aarch64 *)

(** C3: the table was read, the machine type is a non-empty string, and the
    native tag is aarch64 or the machine type is "aarch64": then [load]
    returns, [default] is "aarch64" and [supported] is
    aarch64, armv7, armhf in this order, whatever the table holds and
    whatever the instance held before. *)
Theorem load_aarch64 h t self m native :
  arch_json h = Some t ->
  sys_machine h = Some m -> m <> "" ->
  result (detect_cpu h self) = inr native ->
  native = "aarch64" \/ m = "aarch64" ->
  let self' := self_after (load h self) in
  result (load h self) = inr tt /\
  result (default self') = inr "aarch64" /\
  result (supported self') = inr ["aarch64"; "armv7"; "armhf"] /\
  _supported_set self' = {[ "aarch64"; "armv7"; "armhf" ]}.
Proof.
  intros E Hm Hne R O. rewrite (load_readable _ _ _ E).
  destruct (detect_cpu_run h self) as (native' & lg & D).
  rewrite D in R. injection R as ->.
  apply aarch64_override_true in O.
  rewrite (load_with_override h t self native m lg D Hm Hne O). simpl.
  split; [reflexivity |]. split; [reflexivity |]. split; [reflexivity |].
  vm_compute. reflexivity.
Qed.

Lemma load_aarch64_witness :
  (let self' := self_after (load host_odd_aarch64 init) in
   result (load host_odd_aarch64 init) = inr tt /\
   result (default self') = inr "aarch64" /\
   result (supported self') = inr ["aarch64"; "armv7"; "armhf"] /\
   _supported_set self' = {[ "aarch64"; "armv7"; "armhf" ]}).
Proof.
  apply (load_aarch64 host_odd_aarch64 sample_table init "odroid-n2" "aarch64").
  - reflexivity.
  - reflexivity.
  - discriminate.
  - vm_compute. reflexivity.
  - left. reflexivity.
Defined.

(** ** C5: the machine type is a key of the table *)

(** C5: first [load], the table was read, the machine type is a non-empty
    string and a key of the table with a non-empty entry, and the special
    handling for aarch64 does not apply: then [supported] is the entry, in
    its order, followed by the native tag exactly when the entry lacks it,
    and [default] is the first element of the entry. *)
Theorem load_first_entry h t m native entry :
  arch_json h = Some t ->
  sys_machine h = Some m -> m <> "" ->
  result (detect_cpu h init) = inr native ->
  native <> "aarch64" -> m <> "aarch64" ->
  t !! m = Some entry -> entry <> [] ->
  let self' := self_after (load h init) in
  result (load h init) = inr tt /\
  (native ∈ entry -> result (supported self') = inr entry) /\
  (native ∉ entry -> result (supported self') = inr (entry ++ [native])) /\
  (exists a, head entry = Some a /\ result (default self') = inr a).
Proof.
  intros E Hm Hne R N1 N2 Et Ene. rewrite (load_readable _ _ _ E).
  destruct (detect_cpu_run h init) as (native' & lg & D).
  rewrite D in R. injection R as ->.
  destruct entry as [|a rest]; [contradiction |].
  assert (O : aarch64_override native m = false)
    by (apply aarch64_override_false; split; assumption).
  rewrite (load_with_entry h t init native m lg D Hm Hne (a :: rest) a rest O Et eq_refl).
  cbv zeta.
  destruct (decide (native ∈ a :: rest)) as [I | I];
    [rewrite bool_decide_true by exact I | rewrite bool_decide_false by exact I];
    (split; [reflexivity |]); (split; [| split]);
    try (intros I'; first [contradiction | reflexivity]);
    exists a; split; reflexivity.
Qed.

Lemma load_first_entry_witness :
  result (supported (self_after (load host_nuc_arm init))) =
    inr ["amd64"; "i386"; "armhf"] /\
  result (supported (self_after (load host_rpi4 init))) =
    inr ["armv7"; "armhf"] /\
  result (default (self_after (load host_rpi4 init))) = inr "armv7".
Proof.
  destruct (load_first_entry host_nuc_arm sample_table "intel-nuc" "armhf"
              ["amd64"; "i386"]) as (_ & _ & A & _);
    [ reflexivity | reflexivity | discriminate | vm_compute; reflexivity
    | discriminate | discriminate | vm_compute; reflexivity | discriminate | ].
  destruct (load_first_entry host_rpi4 sample_table "raspberrypi4" "armv7"
              ["armv7"; "armhf"]) as (_ & B & _ & a & Ha & Hd);
    [ reflexivity | reflexivity | discriminate | vm_compute; reflexivity
    | discriminate | discriminate | vm_compute; reflexivity | discriminate | ].
  injection Ha as <-.
  split; [apply A | split; [apply B; left | exact Hd]].
  apply (bool_decide_unpack _). vm_compute. exact I.
Defined.

(** ** C6: no machine type, or one the table does not know *)

(** C6, as claimed, fails: the machine type "odroid-n2" is not a key of the
    table and the native tag is aarch64; the special handling for aarch64
    applies and [supported] has three elements, not the native tag alone. *)
Lemma load_unknown_machine_aarch64 :
  arch_json host_odd_aarch64 = Some sample_table /\
  sys_machine host_odd_aarch64 = Some "odroid-n2" /\
  sample_table !! "odroid-n2" = None /\
  result (detect_cpu host_odd_aarch64 init) = inr "aarch64" /\
  result (supported (self_after (load host_odd_aarch64 init))) =
    inr ["aarch64"; "armv7"; "armhf"] /\
  result (supported (self_after (load host_odd_aarch64 init))) <>
    inr ["aarch64"].
Proof.
  repeat split; try (vm_compute; reflexivity). vm_compute. discriminate.
Qed.

(** C6, amended: first [load], the table was read.  If the machine type is
    [None] or empty, then for every native tag, aarch64 too, [supported] is
    the native tag alone and [default] is the native tag.  If the machine
    type is a non-empty string that is not a key of the table, the same
    holds provided the special handling for aarch64 does not apply: the
    native tag is not aarch64 and the machine type is not "aarch64". *)
Theorem load_first_native_only h t native :
  arch_json h = Some t ->
  result (detect_cpu h init) = inr native ->
  (sys_machine h = None \/ sys_machine h = Some "" \/
   exists m, sys_machine h = Some m /\ m <> "" /\ t !! m = None /\
             native <> "aarch64" /\ m <> "aarch64") ->
  let self' := self_after (load h init) in
  result (load h init) = inr tt /\
  result (supported self') = inr [native] /\
  result (default self') = inr native /\
  _supported_set self' = {[ native ]}.
Proof.
  intros E R C. rewrite (load_readable _ _ _ E).
  destruct (detect_cpu_run h init) as (native' & lg & D).
  rewrite D in R. injection R as ->.
  assert (S : {[ native ]} ∪ ∅ =@{gset string} {[ native ]})
    by apply (right_id_L ∅ (∪)).
  destruct C as [C | [C | (m & Hm & Hne & Et & N1 & N2)]].
  - rewrite (load_with_no_machine h t init native lg D)
      by (apply truthy_false; left; exact C).
    simpl. rewrite S. repeat split.
  - rewrite (load_with_no_machine h t init native lg D)
      by (apply truthy_false; right; exact C).
    simpl. rewrite S. repeat split.
  - assert (O : aarch64_override native m = false)
      by (apply aarch64_override_false; split; assumption).
    rewrite (load_with_no_entry h t init native m lg D Hm Hne O Et).
    simpl. rewrite S. repeat split.
Qed.

Lemma load_first_native_only_witness :
  result (supported (self_after (load host_no_machine init))) =
    inr ["aarch64"] /\
  result (supported (self_after (load host_odd_amd64 init))) =
    inr ["amd64"] /\
  result (default (self_after (load host_odd_amd64 init))) = inr "amd64".
Proof.
  destruct (load_first_native_only host_no_machine sample_table "aarch64")
    as (_ & A & _);
    [ reflexivity | vm_compute; reflexivity | left; reflexivity | ].
  destruct (load_first_native_only host_odd_amd64 sample_table "amd64")
    as (_ & B & C & _);
    [ reflexivity | vm_compute; reflexivity
    | right; right; exists "odroid-n2";
      repeat split; try discriminate; vm_compute; reflexivity | ].
  split; [exact A | split; [exact B | exact C]].
Defined.

(** ** C9: the table cannot be read *)

(** C9: when reading the table raises [ConfigurationFileError], [load]
    returns without raising, leaves the instance exactly as it was, and logs
    one warning; on a first call the list and the set stay empty. *)
Theorem load_unreadable_noop h self :
  arch_json h = None ->
  result (load h self) = inr tt /\
  self_after (load h self) = self /\
  logged (load h self) =
    [LogRecord WARNING "Can't read arch json file from %s" [ARCH_JSON h]] /\
  result (supported (self_after (load h init))) = inr [] /\
  _supported_set (self_after (load h init)) = ∅.
Proof.
  intros E. rewrite !(load_unreadable _ _ E). simpl. repeat split.
Qed.

Lemma load_unreadable_noop_witness :
  result (load host_no_table init) = inr tt /\
  self_after (load host_no_table init) = init.
Proof.
  destruct (load_unreadable_noop host_no_table init eq_refl) as (A & B & _).
  split; [exact A | exact B].
Defined.

(** ** C7: [match] *)

Lemma match_loop_self prefs l self :
  self_after (match_loop prefs l self) = self /\
  logged (match_loop prefs l self) = [].
Proof.
  induction prefs as [|p prefs IH]; simpl; [split; reflexivity |].
  destruct (bool_decide (p ∈ l)); [split; reflexivity | exact IH].
Qed.

Lemma match_loop_inr prefs l self a :
  result (match_loop prefs l self) = inr a <->
  exists pre post,
    prefs = pre ++ a :: post /\ a ∈ l /\ forall x, x ∈ pre -> x ∉ l.
Proof.
  induction prefs as [|p prefs IH]; simpl.
  - split; [discriminate |].
    intros (pre & post & E & _). destruct pre; discriminate.
  - destruct (decide (p ∈ l)) as [I | I].
    + rewrite bool_decide_true by exact I. simpl. split.
      * intros [= <-]. exists [], prefs. split; [reflexivity |].
        split; [exact I |]. intros x Hx. inversion Hx.
      * intros (pre & post & E & Ha & Hpre). destruct pre as [|q pre].
        -- injection E as ->. reflexivity.
        -- injection E as <- _. exfalso. apply (Hpre p); [left | exact I].
    + rewrite bool_decide_false by exact I. rewrite IH. split.
      * intros (pre & post & -> & Ha & Hpre). exists (p :: pre), post.
        split; [reflexivity |]. split; [exact Ha |].
        intros x Hx. apply elem_of_cons in Hx as [-> | Hx]; auto.
      * intros (pre & post & E & Ha & Hpre). destruct pre as [|q pre].
        -- injection E as -> _. contradiction.
        -- injection E as _ ->. exists pre, post.
           split; [reflexivity |]. split; [exact Ha |].
           intros x Hx. apply Hpre. right. exact Hx.
Qed.

Lemma match_loop_inl prefs l self e :
  result (match_loop prefs l self) = inl e <->
  e = HassioArchNotFound /\ forall x, x ∈ prefs -> x ∉ l.
Proof.
  induction prefs as [|p prefs IH]; simpl.
  - split.
    + intros [= <-]. split; [reflexivity |]. intros x Hx. inversion Hx.
    + intros [-> _]. reflexivity.
  - destruct (decide (p ∈ l)) as [I | I].
    + rewrite bool_decide_true by exact I. simpl. split; [discriminate |].
      intros [_ H]. exfalso. apply (H p); [left | exact I].
    + rewrite bool_decide_false by exact I. rewrite IH. split.
      * intros [-> H]. split; [reflexivity |].
        intros x Hx. apply elem_of_cons in Hx as [-> | Hx]; auto.
      * intros [-> H]. split; [reflexivity |].
        intros x Hx. apply H. right. exact Hx.
Qed.

Lemma match_loop_same_elements prefs l l' self :
  (forall x, x ∈ l <-> x ∈ l') ->
  match_loop prefs l self = match_loop prefs l' self.
Proof.
  intros S. induction prefs as [|p prefs IH]; simpl; [reflexivity |].
  rewrite (bool_decide_ext _ _ (S p)).
  destruct (bool_decide (p ∈ l')); [reflexivity | exact IH].
Qed.

Lemma match_unfold arch_list self :
  match_ arch_list self = match_loop (_supported_arch self) arch_list self.
Proof.
  unfold match_, supported. run. apply outcome_eta.
Qed.

(** C7: for every instance and every list, [match] returns the first
    element of [_supported_arch], in that list's order, that occurs in
    [arch_list]; it raises [HassioArchNotFound], and nothing else, exactly
    when no element of [_supported_arch] occurs in [arch_list], so always
    when [_supported_arch] is empty; it gives the same on every permutation
    of [arch_list], and leaves the instance alone. *)
Theorem match_first_supported (self : CpuArch) (arch_list : list string) :
  (forall a,
     result (match_ arch_list self) = inr a <->
     exists pre post,
       _supported_arch self = pre ++ a :: post /\ a ∈ arch_list /\
       forall x, x ∈ pre -> x ∉ arch_list) /\
  (result (match_ arch_list self) = inl HassioArchNotFound <->
   forall x, x ∈ _supported_arch self -> x ∉ arch_list) /\
  (forall e, result (match_ arch_list self) = inl e ->
             e = HassioArchNotFound) /\
  (_supported_arch self = [] ->
   result (match_ arch_list self) = inl HassioArchNotFound) /\
  (forall l', l' ≡ₚ arch_list -> match_ l' self = match_ arch_list self) /\
  self_after (match_ arch_list self) = self.
Proof.
  rewrite match_unfold. split; [| split; [| split; [| split; [| split]]]].
  - intros a. apply match_loop_inr.
  - rewrite match_loop_inl. split; [intros [_ H]; exact H | auto].
  - intros e H. apply match_loop_inl in H as [-> _]. reflexivity.
  - intros ->. reflexivity.
  - intros l' P. rewrite match_unfold. apply match_loop_same_elements.
    intros x. rewrite P. reflexivity.
  - apply match_loop_self.
Qed.

(** ** C8: [is_supported] *)

Lemma isdisjoint_true s l :
  isdisjoint s l = true <-> forall x, x ∈ l -> x ∉ s.
Proof.
  unfold isdisjoint. induction l as [|y l IH]; simpl.
  - split; [intros _ x Hx; inversion Hx | reflexivity].
  - rewrite andb_true_iff, IH, negb_true_iff, bool_decide_eq_false. split.
    + intros [Hy H] x Hx. apply elem_of_cons in Hx as [-> | Hx]; auto.
    + intros H. split; [apply H; left | intros x Hx; apply H; right; exact Hx].
Qed.

Lemma isdisjoint_false s l :
  isdisjoint s l = false <-> exists x, x ∈ s /\ x ∈ l.
Proof.
  unfold isdisjoint. induction l as [|y l IH]; simpl.
  - split; [discriminate | intros (x & _ & Hx); inversion Hx].
  - rewrite andb_false_iff, IH, negb_false_iff, bool_decide_eq_true. split.
    + intros [Hy | (x & Hs & Hx)];
        [exists y; split; [exact Hy | left]
        | exists x; split; [exact Hs | right; exact Hx]].
    + intros (x & Hs & Hx). apply elem_of_cons in Hx as [-> | Hx];
        [left; exact Hs | right; exists x; split; assumption].
Qed.

(** C8: for every instance and every list, [is_supported] returns a
    boolean, true exactly when [_supported_set] and [arch_list] share an
    element; it returns false on every list when [_supported_set] is empty,
    as it is before [load] and after a [load] that could not read the table;
    and it leaves the instance alone. *)
Theorem is_supported_iff (self : CpuArch) (arch_list : list string) :
  (exists b, result (is_supported arch_list self) = inr b) /\
  (result (is_supported arch_list self) = inr true <->
   exists x, x ∈ _supported_set self /\ x ∈ arch_list) /\
  (_supported_set self = ∅ ->
   result (is_supported arch_list self) = inr false) /\
  result (is_supported arch_list init) = inr false /\
  (forall h, arch_json h = None ->
     result (is_supported arch_list (self_after (load h init))) = inr false) /\
  self_after (is_supported arch_list self) = self /\
  logged (is_supported arch_list self) = [].
Proof.
  assert (E : forall s, _supported_set s = ∅ ->
                        result (is_supported arch_list s) = inr false).
  { intros s Hs. unfold is_supported. run. rewrite Hs. f_equal.
    apply negb_false_iff, isdisjoint_true. intros x _.
    apply not_elem_of_empty. }
  split; [eexists; reflexivity |]. split; [| split; [| split; [| split]]].
  - unfold is_supported. run. rewrite <- isdisjoint_false. split.
    + intros [= H]. apply negb_true_iff in H. exact H.
    + intros ->. reflexivity.
  - apply E.
  - apply E. reflexivity.
  - intros h Hh. rewrite (load_unreadable _ _ Hh). apply E. reflexivity.
  - split; reflexivity.
Qed.

(** ** C10: [default] before the state is populated *)

Lemma unpopulating_keeps self h :
  unpopulating self h -> self_after (load h self) = self.
Proof.
  intros [E | [e R]].
  - rewrite (load_unreadable _ _ E). reflexivity.
  - destruct (arch_json h) as [t|] eqn:E.
    + rewrite (load_readable _ _ _ E) in *.
      destruct (load_with_cases h t self)
        as [(s' & lg & d & W & _) | (m & native & lg & _ & _ & _ & _ & _ & _ & W)];
        rewrite W in *; [discriminate | reflexivity].
    + rewrite (load_unreadable _ _ E). reflexivity.
Qed.

(** C10: as long as no [load] has populated the instance, that is on the
    new instance and after any calls of [load] that could not read the
    table (or raised), reading [default] raises [AttributeError], since
    [__init__] never assigns [_default_arch], while [supported] returns the
    empty list and [_supported_set] is the empty set. *)
Theorem default_unassigned (hs : list Host) :
  Forall (unpopulating init) hs ->
  result (default (loads hs)) = inl AttributeError /\
  result (supported (loads hs)) = inr [] /\
  _supported_set (loads hs) = ∅.
Proof.
  intros F. assert (E : loads hs = init).
  { unfold loads. induction F as [|h hs U _ IH]; simpl; [reflexivity |].
    rewrite (unpopulating_keeps _ _ U). exact IH. }
  rewrite E. repeat split.
Qed.

Lemma default_unassigned_witness :
  result (default init) = inl AttributeError /\
  result (default (loads [host_no_table; host_blank; host_no_table])) =
    inl AttributeError /\
  result (supported (loads [host_no_table; host_blank; host_no_table])) =
    inr [].
Proof.
  destruct (default_unassigned []) as (A & _); [constructor |].
  destruct (default_unassigned [host_no_table; host_blank; host_no_table])
    as (B & C & _).
  { constructor; [left; reflexivity |].
    constructor; [right; exists IndexError; vm_compute; reflexivity |].
    constructor; [left; reflexivity | constructor]. }
  split; [exact A | split; [exact B | exact C]].
Defined.

(** * More on [load], [detect_cpu], [match] and [is_supported] *)

(** [load] on a table that was read ends in one of the five ways of
    [loaded]. *)
Lemma load_loaded h t self :
  arch_json h = Some t ->
  exists native,
    result (detect_cpu h self) = inr native /\
    loaded h t native self (result (load h self)) (self_after (load h self)).
Proof.
  intros E. rewrite (load_readable _ _ _ E).
  destruct (detect_cpu_run h self) as (native & lg & D).
  exists native. rewrite D. split; [reflexivity |].
  destruct (truthy (sys_machine h)) eqn:T.
  - destruct (sys_machine h) as [m|] eqn:Hm; [| discriminate].
    assert (Hne : m <> "") by (intros ->; discriminate).
    destruct (aarch64_override native m) eqn:O.
    + rewrite (load_with_override h t self native m lg D Hm Hne O).
      eapply loaded_override; eauto.
    + destruct (t !! m) as [entry|] eqn:Et.
      * destruct (_supported_arch self ++ entry) as [|a rest] eqn:L.
        -- rewrite (load_with_entry_empty h t self native m lg D Hm Hne
                      entry O Et L).
           apply app_eq_nil in L as [L ->]. simpl.
           replace {| _supported_arch := []; _supported_set := _supported_set self;
                      _default_arch := _default_arch self |} with self
             by (destruct self; simpl in *; rewrite L; reflexivity).
           eapply loaded_index_error; eauto.
        -- rewrite (load_with_entry h t self native m lg D Hm Hne
                      entry a rest O Et L).
           eapply loaded_entry; eauto.
      * rewrite (load_with_no_entry h t self native m lg D Hm Hne O Et).
        eapply loaded_no_entry; eauto.
  - rewrite (load_with_no_machine h t self native lg D T).
    apply loaded_no_machine. exact T.
Qed.

(** ** What [load] raises, and what it leaves behind when it does *)

(** X1: the only exception [load] lets out is [IndexError]; it does so only
    on a list that is still empty, for a machine type whose entry in the
    table is the empty list, and then the instance is exactly as before. *)
Theorem load_raise_atomic h self e :
  result (load h self) = inl e ->
  e = IndexError /\
  self_after (load h self) = self /\
  _supported_arch self = [] /\
  exists t m, arch_json h = Some t /\ sys_machine h = Some m /\
              m <> "" /\ t !! m = Some [].
Proof.
  intros R. destruct (arch_json h) as [t|] eqn:E.
  - destruct (load_loaded h t self E) as (native & _ & L).
    rewrite R in L. inversion L; subst.
    repeat split; try congruence. exists t, m. auto.
  - rewrite (load_unreadable _ _ E) in R. discriminate.
Qed.

Lemma load_raise_atomic_witness :
  self_after (load host_blank init) = init.
Proof.
  destruct (load_raise_atomic host_blank init IndexError) as (_ & A & _);
    [vm_compute; reflexivity | exact A].
Defined.

(** ** The instance across any number of calls *)

Lemma consistent_init : consistent init.
Proof.
  split; [reflexivity |]. split; [split; reflexivity |]. discriminate.
Qed.

(** One call of [load], on any host, keeps the instance consistent. *)
Lemma load_consistent h self :
  consistent self -> consistent (self_after (load h self)).
Proof.
  intros C. destruct (arch_json h) as [t|] eqn:E.
  - destruct (load_loaded h t self E) as (native & _ & L). revert L.
    generalize (result (load h self)) (self_after (load h self)).
    intros r self' L.
    destruct L as [T | m Hm Hne O | m Hm Hne O Et
                  | m entry a rest Hm Hne O Et Ea | m Hm Hne O Et Ea];
      try exact C.
    + split; [reflexivity |]. split.
      * split; [discriminate | intros N; destruct (app_cons_not_nil _ _ _ (eq_sym N))].
      * intros d [= <-]. apply elem_of_app. right. left.
    + split; [reflexivity |]. split; [split; discriminate |].
      intros d [= <-]. left.
    + split; [reflexivity |]. split.
      * split; [discriminate | intros N; destruct (app_cons_not_nil _ _ _ (eq_sym N))].
      * intros d [= <-]. apply elem_of_app. right. left.
    + cbv zeta. destruct (bool_decide (native ∈ a :: rest));
        (split; [reflexivity |]); (split; [split; discriminate |]);
        intros d [= <-]; left.
  - rewrite (load_unreadable _ _ E). exact C.
Qed.

Lemma foldl_load_consistent hs self :
  consistent self ->
  consistent (foldl (fun self h => self_after (load h self)) self hs).
Proof.
  revert self. induction hs as [|h hs IH]; intros self C; simpl; [exact C |].
  apply IH, load_consistent, C.
Qed.

(** X2: after any sequence of calls of [load] on a new instance, whatever
    the hosts and whether the calls returned, raised or could not read the
    table, [_supported_set] is the set of the elements of [_supported_arch],
    [_default_arch] is unassigned exactly when the list is empty, and an
    assigned default is in the list. *)
Theorem loads_consistent (hs : list Host) : consistent (loads hs).
Proof. apply foldl_load_consistent, consistent_init. Qed.

(** ** Calling [load] again *)

(** X3: unless the special handling for aarch64 applies, [load] only adds
    to [_supported_arch]: the list it found is a prefix of the list it
    leaves.  With the special handling the list is replaced. *)
Theorem load_extends_list h t self native :
  arch_json h = Some t ->
  result (detect_cpu h self) = inr native ->
  let self' := self_after (load h self) in
  (truthy (sys_machine h) = false \/
   (exists m, sys_machine h = Some m /\ aarch64_override native m = false) ->
   _supported_arch self `prefix_of` _supported_arch self') /\
  ((exists m, sys_machine h = Some m /\ m <> "" /\
              aarch64_override native m = true) ->
   _supported_arch self' = ["aarch64"; "armv7"; "armhf"]).
Proof.
  intros E R. destruct (load_loaded h t self E) as (native' & R' & L).
  rewrite R in R'. injection R' as <-. cbv zeta. revert L.
  generalize (result (load h self)) (self_after (load h self)).
  intros r self' L.
  destruct L as [T | m Hm Hne O | m Hm Hne O Et
                | m entry a rest Hm Hne O Et Ea | m Hm Hne O Et Ea];
    simpl; split.
  - intros _. apply prefix_app_r. reflexivity.
  - intros (m & Hm & Hne & _). rewrite Hm in T. rewrite truthy_Some in T by exact Hne.
    discriminate.
  - intros [T | (m' & Hm' & O')]; [rewrite Hm, truthy_Some in T by exact Hne; discriminate |].
    congruence.
  - reflexivity.
  - intros _. apply prefix_app_r. reflexivity.
  - intros (m' & Hm' & _ & O'). congruence.
  - intros _. destruct (bool_decide _);
      [exists entry; symmetry; exact Ea
      | exists (entry ++ [native]); rewrite app_assoc, Ea; reflexivity].
  - intros (m' & Hm' & _ & O'). congruence.
  - intros _. reflexivity.
  - intros (m' & Hm' & _ & O'). congruence.
Qed.

Lemma load_extends_list_witness :
  _supported_arch (self_after (load host_nuc_arm init))
    `prefix_of`
  _supported_arch (self_after (load host_nuc_arm
                                 (self_after (load host_nuc_arm init)))).
Proof.
  destruct (load_extends_list host_nuc_arm sample_table
              (self_after (load host_nuc_arm init)) "armhf") as [A _];
    [reflexivity | vm_compute; reflexivity |].
  apply A. right. exists "intel-nuc". split; reflexivity.
Defined.

Lemma loads_snoc hs h :
  loads (hs ++ [h]) = self_after (load h (loads hs)).
Proof. unfold loads. rewrite foldl_app. reflexivity. Qed.

(** X4: on a host without a machine type, every call of [load] appends the
    native tag once more: after [n] calls on a new instance the list is [n]
    copies of the tag, while the set holds it once. *)
Theorem load_no_machine_repeats h t native (n : nat) :
  arch_json h = Some t ->
  truthy (sys_machine h) = false ->
  result (detect_cpu h init) = inr native ->
  _supported_arch (loads (replicate n h)) = replicate n native /\
  (0 < n -> _supported_set (loads (replicate n h)) = {[ native ]} /\
            _default_arch (loads (replicate n h)) = Some native).
Proof.
  intros E T R.
  assert (step : forall self,
             self_after (load h self) =
             {| _supported_arch := _supported_arch self ++ [native];
                _supported_set := list_to_set (_supported_arch self ++ [native]);
                _default_arch := Some native |}).
  { intros self. rewrite (load_readable _ _ _ E).
    destruct (detect_cpu_run h self) as (native' & lg & D).
    rewrite (detect_cpu_indep h init self), D in R. injection R as ->.
    rewrite (load_with_no_machine h t self native lg D T). reflexivity. }
  assert (L : forall k, _supported_arch (loads (replicate k h)) = replicate k native).
  { induction k as [|k IH]; [reflexivity |].
    rewrite replicate_S_end, loads_snoc, step. simpl. rewrite IH.
    symmetry. apply replicate_S_end. }
  split; [apply L |]. intros Hn. destruct n as [|n]; [lia |].
  rewrite replicate_S_end, loads_snoc, step. simpl. split; [| reflexivity].
  rewrite L, <- replicate_S_end. apply set_eq. intros x.
  rewrite elem_of_list_to_set, elem_of_replicate, elem_of_singleton.
  split; [intros [-> _]; reflexivity | intros ->; split; [reflexivity | lia]].
Qed.

Lemma load_no_machine_repeats_witness :
  _supported_arch (loads (replicate 3 host_no_machine)) =
    ["aarch64"; "aarch64"; "aarch64"].
Proof.
  destruct (load_no_machine_repeats host_no_machine sample_table "aarch64" 3)
    as [A _]; [reflexivity | reflexivity | vm_compute; reflexivity | exact A].
Defined.

(** X5: a second [load] on a host whose machine type is a key of the table
    appends the entry again: the list is then what the first call left,
    followed by the whole entry, and the default stays the first element of
    the entry. *)
Theorem load_twice_entry h t m native entry :
  arch_json h = Some t ->
  sys_machine h = Some m -> m <> "" ->
  result (detect_cpu h init) = inr native ->
  aarch64_override native m = false ->
  t !! m = Some entry -> entry <> [] ->
  let first := _supported_arch (loads [h]) in
  first = (if bool_decide (native ∈ entry) then entry else entry ++ [native]) /\
  _supported_arch (loads [h; h]) = first ++ entry /\
  _default_arch (loads [h; h]) = head entry.
Proof.
  intros E Hm Hne R O Et Ene. destruct entry as [|a rest]; [contradiction |].
  assert (D : forall self, exists lg,
             detect_cpu h self = Outcome (inr native) self lg).
  { intros self. destruct (detect_cpu_run h self) as (n' & lg & D).
    rewrite (detect_cpu_indep h init self), D in R. injection R as ->. eauto. }
  destruct (D init) as [lg0 D0].
  assert (S1 : loads [h] =
               (let l := if bool_decide (native ∈ a :: rest) then a :: rest
                         else (a :: rest) ++ [native] in
                {| _supported_arch := l; _supported_set := list_to_set l;
                   _default_arch := Some a |})).
  { unfold loads. simpl foldl. rewrite (load_readable _ _ _ E).
    rewrite (load_with_entry h t init native m lg0 D0 Hm Hne (a :: rest) a rest
               O Et eq_refl). reflexivity. }
  cbv zeta in *. split; [rewrite S1; reflexivity |].
  change [h; h] with ([h] ++ [h]). rewrite loads_snoc, S1.
  set (l := if bool_decide (native ∈ a :: rest) then a :: rest
            else (a :: rest) ++ [native]).
  set (s1 := {| _supported_arch := l; _supported_set := list_to_set l;
                _default_arch := Some a |}).
  destruct (D s1) as [lg1 D1].
  assert (I : native ∈ l ++ a :: rest).
  { subst l. destruct (decide (native ∈ a :: rest)) as [I | I].
    - apply elem_of_app. right. exact I.
    - rewrite bool_decide_false by exact I.
      apply elem_of_app. left. apply elem_of_app. right. left. }
  assert (Hd : exists rest', l ++ a :: rest = a :: rest').
  { subst l. destruct (bool_decide _); simpl; eauto. }
  destruct Hd as [rest' Hd].
  rewrite (load_readable _ _ _ E).
  rewrite (load_with_entry h t s1 native m lg1 D1 Hm Hne (a :: rest) a rest'
             O Et Hd).
  cbv zeta. rewrite <- Hd, bool_decide_true by exact I.
  split; reflexivity.
Qed.

Lemma load_twice_entry_witness :
  _supported_arch (loads [host_nuc_arm; host_nuc_arm]) =
    ["amd64"; "i386"; "armhf"; "amd64"; "i386"].
Proof.
  destruct (load_twice_entry host_nuc_arm sample_table "intel-nuc" "armhf"
              ["amd64"; "i386"]) as (A & B & _);
    [ reflexivity | reflexivity | discriminate | vm_compute; reflexivity
    | reflexivity | vm_compute; reflexivity | discriminate | ].
  rewrite B, A. vm_compute. reflexivity.
Defined.

(** ** [is_supported] against [match] *)

Lemma is_supported_match_consistent self arch_list :
  _supported_set self = list_to_set (_supported_arch self) ->
  (result (is_supported arch_list self) = inr true <->
   exists a, result (match_ arch_list self) = inr a) /\
  (result (is_supported arch_list self) = inr false <->
   result (match_ arch_list self) = inl HassioArchNotFound).
Proof.
  intros S. rewrite match_unfold.
  assert (G : result (match_loop (_supported_arch self) arch_list self) =
                inl HassioArchNotFound <->
              isdisjoint (_supported_set self) arch_list = true).
  { rewrite match_loop_inl, isdisjoint_true, S. split.
    - intros [_ F] x Hl Hs. apply elem_of_list_to_set in Hs. exact (F x Hs Hl).
    - intros F. split; [reflexivity |]. intros x Hs Hl.
      apply (F x Hl), elem_of_list_to_set, Hs. }
  assert (R : result (is_supported arch_list self) =
              inr (negb (isdisjoint (_supported_set self) arch_list)))
    by reflexivity.
  rewrite R. clear R.
  destruct (isdisjoint (_supported_set self) arch_list) eqn:Dj; simpl.
  - assert (Rm := proj2 G eq_refl). rewrite Rm. split; split;
      try discriminate; try reflexivity. intros [a Ha]. discriminate.
  - assert (NR : result (match_loop (_supported_arch self) arch_list self) <>
                 inl HassioArchNotFound)
      by (intros X; apply G in X; discriminate).
    clear G.
    destruct (result (match_loop (_supported_arch self) arch_list self))
      as [e | a] eqn:Rm.
    + exfalso. pose proof (proj1 (match_loop_inl _ _ _ _) Rm) as [-> _].
      apply NR. reflexivity.
    + split; split; eauto; discriminate.
Qed.

(** X6: after any sequence of calls of [load] on a new instance,
    [is_supported] and [match] agree on every list: [is_supported] returns
    true exactly when [match] returns a tag, and false exactly when [match]
    raises [HassioArchNotFound]. *)
Theorem is_supported_agrees_with_match (hs : list Host)
    (arch_list : list string) :
  (result (is_supported arch_list (loads hs)) = inr true <->
   exists a, result (match_ arch_list (loads hs)) = inr a) /\
  (result (is_supported arch_list (loads hs)) = inr false <->
   result (match_ arch_list (loads hs)) = inl HassioArchNotFound).
Proof.
  apply is_supported_match_consistent.
  apply (foldl_load_consistent hs init consistent_init).
Qed.

(** ** Lists of one tag, and the empty list *)

Lemma match_one self a :
  a ∈ _supported_arch self -> result (match_ [a] self) = inr a.
Proof.
  rewrite match_unfold. generalize (_supported_arch self) as prefs.
  induction prefs as [|p prefs IH]; intros I; [inversion I |]. simpl.
  destruct (decide (p ∈ [a])) as [Hp | Hp].
  - rewrite bool_decide_true by exact Hp.
    apply list_elem_of_singleton in Hp as ->. reflexivity.
  - rewrite bool_decide_false by exact Hp.
    apply elem_of_cons in I as [-> | I]; [| exact (IH I)].
    exfalso. apply Hp. left.
Qed.

Lemma match_none self arch_list :
  (forall x, x ∈ _supported_arch self -> x ∉ arch_list) ->
  result (match_ arch_list self) = inl HassioArchNotFound.
Proof.
  intros F. rewrite match_unfold. apply match_loop_inl. split; [reflexivity | exact F].
Qed.

Lemma is_supported_one self a :
  _supported_set self = list_to_set (_supported_arch self) ->
  result (is_supported [a] self) = inr (bool_decide (a ∈ _supported_arch self)).
Proof.
  intros S.
  assert (R : result (is_supported [a] self) =
              inr (negb (isdisjoint (_supported_set self) [a])))
    by reflexivity.
  rewrite R. f_equal. destruct (decide (a ∈ _supported_arch self)) as [I | I].
  - rewrite bool_decide_true by exact I. apply negb_true_iff, isdisjoint_false.
    exists a. split; [rewrite S; apply elem_of_list_to_set; exact I | left].
  - rewrite bool_decide_false by exact I. apply negb_false_iff, isdisjoint_true.
    intros x Hx Hs. apply list_elem_of_singleton in Hx as ->.
    rewrite S in Hs. apply elem_of_list_to_set in Hs. contradiction.
Qed.

(** X7: on every instance, the empty list is never supported and never
    matched; a list of one tag is matched, giving that tag, exactly when the
    tag is in [_supported_arch], and [match] raises [HassioArchNotFound]
    otherwise. *)
Theorem match_small_lists (self : CpuArch) (a : string) :
  result (is_supported [] self) = inr false /\
  result (match_ [] self) = inl HassioArchNotFound /\
  (result (match_ [a] self) = inr a <-> a ∈ _supported_arch self) /\
  (result (match_ [a] self) = inl HassioArchNotFound <->
   a ∉ _supported_arch self).
Proof.
  split; [reflexivity |]. split.
  { apply match_none. intros x _ Hx. inversion Hx. }
  assert (N : a ∉ _supported_arch self ->
              result (match_ [a] self) = inl HassioArchNotFound).
  { intros I. apply match_none. intros x Hx Hl.
    apply list_elem_of_singleton in Hl as ->. contradiction. }
  split; split.
  - intros R. destruct (decide (a ∈ _supported_arch self)) as [I | I];
      [exact I |]. rewrite (N I) in R. discriminate.
  - apply match_one.
  - intros R I. rewrite (match_one _ _ I) in R. discriminate.
  - exact N.
Qed.

(** ** The default after [load] *)

(** X8: when [load] returns on a table that was read, from whatever state,
    the default it leaves is supported and is its own match:
    [is_supported([default])] is true and [match([default])] is the
    default. *)
Theorem load_default_supported h t self :
  arch_json h = Some t ->
  result (load h self) = inr tt ->
  let self' := self_after (load h self) in
  exists d,
    result (default self') = inr d /\
    result (is_supported [d] self') = inr true /\
    result (match_ [d] self') = inr d.
Proof.
  intros E R. cbv zeta. rewrite (load_readable _ _ _ E) in *.
  destruct (load_with_cases h t self)
    as [(s' & lg & d & W & S & Dd & I)
       | (m & native & lg & _ & _ & _ & _ & _ & _ & W)];
    rewrite W in *; cbn [result self_after] in *; [| discriminate].
  exists d. split; [unfold default; run; rewrite Dd; reflexivity |].
  split; [| apply match_one; exact I].
  rewrite (is_supported_one _ _ S), bool_decide_true by exact I. reflexivity.
Qed.

Lemma load_default_supported_witness :
  exists d,
    result (default (self_after (load host_rpi4 init))) = inr d /\
    result (is_supported [d] (self_after (load host_rpi4 init))) = inr true /\
    result (match_ [d] (self_after (load host_rpi4 init))) = inr d.
Proof.
  apply (load_default_supported host_rpi4 sample_table init);
    vm_compute; reflexivity.
Defined.

Lemma match_head self d rest arch_list :
  _supported_arch self = d :: rest -> d ∈ arch_list ->
  result (match_ arch_list self) = inr d.
Proof.
  intros L I. rewrite match_unfold, L. simpl.
  rewrite bool_decide_true by exact I. reflexivity.
Qed.

(** X9: after the first [load] that returns on a table that was read, the
    default is the first element of [supported]; so [match] returns the
    default on every list that offers it, whatever else the list offers. *)
Theorem load_first_default_head h t :
  arch_json h = Some t ->
  result (load h init) = inr tt ->
  let self' := self_after (load h init) in
  exists d,
    result (default self') = inr d /\
    head (_supported_arch self') = Some d /\
    forall arch_list, d ∈ arch_list ->
                      result (match_ arch_list self') = inr d.
Proof.
  intros E R. cbv zeta.
  destruct (load_loaded h t init E) as (native & _ & L). revert R L.
  generalize (result (load h init)) (self_after (load h init)).
  intros r self' R L.
  destruct L as [T | m Hm Hne O | m Hm Hne O Et
                | m entry a rest Hm Hne O Et Ea | m Hm Hne O Et Ea];
    [ exists native | exists "aarch64" | exists native | exists a
    | discriminate ];
    (split; [reflexivity |]).
  1-3: split; [reflexivity | intros l I; eapply match_head; [reflexivity | exact I]].
  cbv zeta. destruct (bool_decide (native ∈ a :: rest));
    (split; [reflexivity | intros l I; eapply match_head; [reflexivity | exact I]]).
Qed.

Lemma load_first_default_head_witness :
  exists d,
    result (default (self_after (load host_nuc_arm init))) = inr d /\
    head (_supported_arch (self_after (load host_nuc_arm init))) = Some d /\
    forall arch_list, d ∈ arch_list ->
      result (match_ arch_list (self_after (load host_nuc_arm init))) = inr d.
Proof.
  apply (load_first_default_head host_nuc_arm sample_table);
    vm_compute; reflexivity.
Defined.

(** ** What [supported] holds after the first [load] *)

Lemma aarch64_list_NoDup : NoDup ["aarch64"; "armv7"; "armhf"].
Proof. apply (bool_decide_unpack _). vm_compute. exact I. Qed.

(** X10: if the entry of the table for the host's machine type has no tag
    twice, the list after the first [load] has no tag twice: the native tag
    is appended only when it is missing. *)
Theorem load_first_NoDup h :
  (forall t m entry, arch_json h = Some t -> sys_machine h = Some m ->
                     t !! m = Some entry -> NoDup entry) ->
  NoDup (_supported_arch (self_after (load h init))).
Proof.
  intros ND. destruct (arch_json h) as [t|] eqn:E.
  - destruct (load_loaded h t init E) as (native & _ & L). revert L.
    generalize (result (load h init)) (self_after (load h init)).
    intros r self' L.
    destruct L as [T | m Hm Hne O | m Hm Hne O Et
                  | m entry a rest Hm Hne O Et Ea | m Hm Hne O Et Ea]; simpl.
    + apply NoDup_singleton.
    + apply aarch64_list_NoDup.
    + apply NoDup_singleton.
    + simpl in Ea. subst entry. pose proof (ND t m _ eq_refl Hm Et) as N.
      destruct (decide (native ∈ a :: rest)) as [I | I].
      * rewrite bool_decide_true by exact I. exact N.
      * rewrite bool_decide_false by exact I.
        change (NoDup ((a :: rest) ++ [native])). apply NoDup_app.
        split; [exact N |]. split; [| apply NoDup_singleton].
        intros x Hx Hn. apply list_elem_of_singleton in Hn as ->. contradiction.
    + apply NoDup_nil_2.
  - rewrite (load_unreadable _ _ E). apply NoDup_nil_2.
Qed.

Lemma load_first_NoDup_witness :
  NoDup (_supported_arch (self_after (load host_nuc_arm init))).
Proof.
  apply load_first_NoDup. intros t m entry Ht Hm Et.
  injection Ht as <-. injection Hm as <-.
  vm_compute in Et. injection Et as <-.
  apply (bool_decide_unpack _). vm_compute. exact I.
Defined.

(** X11: the native tag after [load].  When [load] returns on a table that
    was read, the native tag is in [supported] and [is_supported] accepts
    it, unless the machine type is "aarch64" and the native tag is none of
    aarch64, armv7, armhf: then the special handling leaves the native tag
    out, and [is_supported] rejects it. *)
Theorem load_native_supported h t self native :
  arch_json h = Some t ->
  result (load h self) = inr tt ->
  result (detect_cpu h self) = inr native ->
  let self' := self_after (load h self) in
  (((sys_machine h = Some "aarch64") ->
    (native ∈ ["aarch64"; "armv7"; "armhf"])) ->
   native ∈ _supported_arch self' /\
   result (is_supported [native] self') = inr true) /\
  (sys_machine h = Some "aarch64" ->
   native ∉ ["aarch64"; "armv7"; "armhf"] ->
   (native ∉ _supported_arch self') /\
   result (is_supported [native] self') = inr false).
Proof.
  intros E R Rn. cbv zeta.
  destruct (load_loaded h t self E) as (native' & Rn' & L).
  rewrite Rn in Rn'. injection Rn' as <-. revert R L.
  generalize (result (load h self)) (self_after (load h self)).
  intros r self' R L.
  assert (Y : forall s, (_supported_set s = list_to_set (_supported_arch s)) ->
                (native ∈ _supported_arch s) ->
                native ∈ _supported_arch s /\
                result (is_supported [native] s) = inr true).
  { intros s S I. split; [exact I |].
    rewrite (is_supported_one _ _ S), bool_decide_true by exact I.
    reflexivity. }
  assert (N : forall s, _supported_set s = list_to_set (_supported_arch s) ->
                native ∉ _supported_arch s ->
                (native ∉ _supported_arch s) /\
                result (is_supported [native] s) = inr false).
  { intros s S I. split; [exact I |].
    rewrite (is_supported_one _ _ S), bool_decide_false by exact I.
    reflexivity. }
  destruct L as [T | m Hm Hne O | m Hm Hne O Et
                | m entry a rest Hm Hne O Et Ea | m Hm Hne O Et Ea];
    [ | | | | discriminate ]; split.
  - intros _. apply Y; [reflexivity |]. apply elem_of_app. right. left.
  - intros Hm. rewrite Hm in T. discriminate.
  - intros F. apply Y; [reflexivity |].
    apply aarch64_override_true in O as [-> | ->]; [left | exact (F Hm)].
  - intros _ F. apply N; [reflexivity | exact F].
  - intros _. apply Y; [reflexivity |]. apply elem_of_app. right. left.
  - intros Hm'. rewrite Hm in Hm'. injection Hm' as ->.
    apply aarch64_override_false in O as [_ O]. contradiction.
  - intros _. cbv zeta. destruct (decide (native ∈ a :: rest)) as [I | I].
    + rewrite bool_decide_true by exact I. apply Y; [reflexivity | exact I].
    + rewrite bool_decide_false by exact I. apply Y; [reflexivity |].
      apply elem_of_app. right. left.
  - intros Hm'. rewrite Hm in Hm'. injection Hm' as ->.
    apply aarch64_override_false in O as [_ O]. contradiction.
Qed.

Lemma load_native_supported_witness :
  result (is_supported ["armhf"] (self_after (load host_nuc_arm init))) =
    inr true /\
  result (is_supported ["amd64"]
            (self_after (load host_named_aarch64 init))) = inr false.
Proof.
  destruct (load_native_supported host_nuc_arm sample_table init "armhf")
    as [A _]; [reflexivity | vm_compute; reflexivity | vm_compute; reflexivity |].
  destruct (load_native_supported host_named_aarch64 sample_table init "amd64")
    as [_ B]; [reflexivity | vm_compute; reflexivity | vm_compute; reflexivity |].
  split.
  - apply A. discriminate.
  - apply B; [reflexivity |].
    apply (bool_decide_unpack _). vm_compute. exact I.
Defined.

(** X12: where the tags of [supported] come from.  After [load] on a table
    that was read, every tag of the list was in the list before, or is the
    native tag, or is in the entry of the table for the machine type, or,
    when the special handling for aarch64 applied, is one of aarch64,
    armv7, armhf. *)
Theorem load_supported_provenance h t self native x :
  arch_json h = Some t ->
  result (detect_cpu h self) = inr native ->
  x ∈ _supported_arch (self_after (load h self)) ->
  x ∈ _supported_arch self \/ x = native \/
  (exists m entry, sys_machine h = Some m /\ t !! m = Some entry /\ x ∈ entry) \/
  (exists m, sys_machine h = Some m /\ aarch64_override native m = true /\
             x ∈ ["aarch64"; "armv7"; "armhf"]).
Proof.
  intros E Rn. destruct (load_loaded h t self E) as (native' & Rn' & L).
  rewrite Rn in Rn'. injection Rn' as <-. revert L.
  generalize (result (load h self)) (self_after (load h self)).
  intros r self' L.
  destruct L as [T | m Hm Hne O | m Hm Hne O Et
                | m entry a rest Hm Hne O Et Ea | m Hm Hne O Et Ea];
    cbn [_supported_arch]; intros I.
  - apply elem_of_app in I as [I | I]; [left; exact I |].
    right. left. apply list_elem_of_singleton in I. exact I.
  - right. right. right. exists m. auto.
  - apply elem_of_app in I as [I | I]; [left; exact I |].
    right. left. apply list_elem_of_singleton in I. exact I.
  - assert (J : x ∈ (a :: rest) ++ [native])
      by (destruct (bool_decide _); [apply elem_of_app; left |]; exact I).
    rewrite <- Ea in J. apply elem_of_app in J as [J | J].
    + apply elem_of_app in J as [J | J]; [left; exact J |].
      right. right. left. exists m, entry. auto.
    + right. left. apply list_elem_of_singleton in J. exact J.
  - left. exact I.
Qed.

Lemma load_supported_provenance_witness :
  "i386" ∈ _supported_arch init \/ "i386" = "armhf" \/
  (exists m entry, sys_machine host_nuc_arm = Some m /\
                   sample_table !! m = Some entry /\ "i386" ∈ entry) \/
  (exists m, sys_machine host_nuc_arm = Some m /\
             aarch64_override "armhf" m = true /\
             "i386" ∈ ["aarch64"; "armv7"; "armhf"]).
Proof.
  apply (load_supported_provenance host_nuc_arm sample_table init "armhf" "i386").
  - reflexivity.
  - vm_compute. reflexivity.
  - apply (bool_decide_unpack _). vm_compute. exact I.
Defined.

(** ** More on [detect_cpu] *)

Lemma MAP_CPU_values s a : MAP_CPU !! s = Some a -> a ∈ arch_tags.
Proof.
  unfold MAP_CPU. intros H. apply elem_of_list_to_map_2 in H.
  unfold arch_tags. rewrite !elem_of_cons in *.
  destruct H as [H | [H | [H | [H | [H | [H | H]]]]]];
    try (injection H as _ ->; tauto).
  inversion H.
Qed.

(** X13: [detect_cpu] only ever returns one of the five tags armv7, armhf,
    aarch64, i386, amd64, whatever [platform.machine()] reports. *)
Theorem detect_cpu_tags (h : Host) (self : CpuArch) :
  exists a, result (detect_cpu h self) = inr a /\ a ∈ arch_tags.
Proof.
  eexists. split; [apply detect_cpu_result |]. cbv zeta.
  destruct (MAP_CPU !! _) as [a|] eqn:K; [exact (MAP_CPU_values _ _ K) |].
  unfold arch_tags. rewrite !elem_of_cons.
  repeat match goal with
         | |- context [if ?b then _ else _] => destruct b
         end; tauto.
Qed.

Lemma lower_ascii_only s : ascii_only s = true -> ascii_only (PyStr.lower s) = true.
Proof.
  induction s as [|c s IH]; simpl; [reflexivity |].
  rewrite !andb_true_iff. intros [Hc Hs]. split; [| exact (IH Hs)].
  unfold PyStr.lower_ascii.
  destruct ((65 <=? nat_of_ascii c)%nat && (nat_of_ascii c <=? 90)%nat) eqn:U;
    [| exact Hc].
  apply andb_true_iff in U as [_ U]. apply Nat.leb_le in U.
  apply Nat.ltb_lt. rewrite nat_ascii_embedding by lia. lia.
Qed.

(** X14: [detect_cpu] logs only when it falls back: either the lower-cased
    machine string is no key of [MAP_CPU] and contains neither "aarch64" nor
    "arm", and then it returns amd64 and logs exactly one record, a warning
    "Unsupported CPU architecture: %s" with one argument; or it logs
    nothing.  When [platform.machine()] is an ASCII string, the argument of
    the warning is that string with A-Z lower-cased, itself an ASCII
    string. *)
Theorem detect_cpu_warning (h : Host) (self : CpuArch) :
  let cpu_arch := PyStr.lower (platform_machine h) in
  ((cpu_arch ∉ MAP_CPU_keys) /\
   ~ PyStr.Substring "aarch64" cpu_arch /\ ~ PyStr.Substring "arm" cpu_arch /\
   result (detect_cpu h self) = inr "amd64" /\
   exists arg,
     logged (detect_cpu h self) =
       [LogRecord WARNING "Unsupported CPU architecture: %s" [arg]] /\
     (ascii_only (platform_machine h) = true ->
      arg = cpu_arch /\ ascii_only arg = true)) \/
  ((cpu_arch ∈ MAP_CPU_keys \/
    PyStr.Substring "aarch64" cpu_arch \/ PyStr.Substring "arm" cpu_arch) /\
   logged (detect_cpu h self) = []).
Proof.
  intros cpu_arch. unfold detect_cpu. fold cpu_arch.
  destruct (MAP_CPU !! cpu_arch) as [a|] eqn:K.
  { right. split; [| reflexivity]. left.
    destruct (decide (cpu_arch ∈ MAP_CPU_keys)) as [I | I]; [exact I |].
    apply MAP_CPU_None in I. congruence. }
  apply MAP_CPU_None in K.
  destruct (PyStr.contains "aarch64" cpu_arch) eqn:C1.
  { right. split; [| reflexivity]. right. left. apply contains_spec, C1. }
  destruct (PyStr.contains "arm" cpu_arch) eqn:C2.
  { right. split; [right; right; apply contains_spec, C2 |].
    simpl. destruct (PyStr.contains "v8" cpu_arch); [reflexivity |].
    destruct (PyStr.contains "v7" cpu_arch); reflexivity. }
  left. apply contains_false_spec in C1, C2. simpl.
  repeat (split; [assumption || reflexivity |]).
  exists cpu_arch. split; [reflexivity |].
  intros A. split; [reflexivity | exact (lower_ascii_only _ A)].
Qed.

Lemma detect_cpu_warning_witness :
  result (detect_cpu host_unknown_cpu init) = inr "amd64" /\
  logged (detect_cpu host_unknown_cpu init) =
    [LogRecord WARNING "Unsupported CPU architecture: %s" ["riscv64"]].
Proof.
  destruct (detect_cpu_warning host_unknown_cpu init)
    as [(_ & _ & _ & R & arg & L & A) | [_ L]].
  - destruct (A eq_refl) as [-> _]. split; [exact R | exact L].
  - vm_compute in L. discriminate.
Defined.

(** ** [is_supported] on a concatenation *)

(** X15: [is_supported] accepts a concatenation of two lists exactly when
    it accepts one of them; so adding candidates never turns a supported
    list into an unsupported one. *)
Theorem is_supported_app (self : CpuArch) (l1 l2 : list string) :
  result (is_supported (l1 ++ l2) self) = inr true <->
  result (is_supported l1 self) = inr true \/
  result (is_supported l2 self) = inr true.
Proof.
  assert (R : forall l, result (is_supported l self) =
                        inr (negb (isdisjoint (_supported_set self) l)))
    by reflexivity.
  rewrite !R. unfold isdisjoint. rewrite forallb_app, negb_andb.
  destruct (negb (forallb _ l1)), (negb (forallb _ l2)); simpl;
    split; try tauto; try discriminate; intros [H | H]; discriminate.
Qed.
